(** * CVD image I/O dispatch layer ([cvd/image_io.h])

    A shallow embedding of the generic load/save front end of the CVD
    library: format sniffing in [img_load], the [ImageType] enumeration,
    the [save_default] bit-depth policy and the three [img_save]
    overloads, followed by the properties established about them.

    The format codecs ([PNM::readPNM], [BMP::writeBMP], ...), the pixel
    traits and the C++ stream classes live outside this header.  Codecs
    and traits are taken as parameters; streams are modelled by the small
    state machine of [Module Stream]. *)

From Stdlib Require Import ZArith List Strings.String Strings.Ascii Strings.Byte Bool Lia.
Import ListNotations.

Local Open Scope string_scope.
Local Open Scope list_scope.
Local Open Scope Z_scope.

(** ** Build configuration ([cvd/config.h]) *)

(** The two feature macros tested by [#ifdef] in the header.  [true]
    means the macro is defined. *)
Record config : Type := mk_config {
  CVD_IMAGE_HAVE_JPEG : bool;
  CVD_IMAGE_HAVE_TIFF : bool
}.

(** ** Results of calls that may throw

    A C++ call either returns or throws, and what it did to the objects
    passed by reference stays done in both cases: [thrown] is the
    exception that escaped, if any, and [after] the state of the
    arguments when control left the call. *)
Record result (E S : Type) : Type := mk_result {
  thrown : option E;
  after : S
}.
Arguments mk_result {E S} _ _.
Arguments thrown {E S} _.
Arguments after {E S} _.

Definition returns {E S : Type} (s : S) : result E S := mk_result None s.
Definition throws {E S : Type} (e : E) (s : S) : result E S := mk_result (Some e) s.

(** ** Streams *)

Module Stream.

(** An input stream as [img_load] can observe it: whether its dynamic
    type is [std::ifstream] (what the [dynamic_cast] tests), whether
    that file stream is open, the three error bits of [rdstate()], the
    bytes not yet consumed, and whether fetching a byte from the buffer
    fails with a read error (a file stream opened on a directory, a
    device that went away) instead of delivering data or its end. *)
Record istream : Type := mk_istream {
  is_ifstream : bool;
  is_open : bool;
  badbit : bool;
  eofbit : bool;
  failbit : bool;
  pending : list byte;
  read_fails : bool
}.

(** [good()] holds when no bit of [rdstate()] is set. *)
Definition good (i : istream) : bool :=
  negb (badbit i || eofbit i || failbit i).

Definition set_badbit (i : istream) : istream :=
  mk_istream (is_ifstream i) (is_open i) true (eofbit i) (failbit i) (pending i)
             (read_fails i).

Definition set_eofbit (i : istream) : istream :=
  mk_istream (is_ifstream i) (is_open i) (badbit i) true (failbit i) (pending i)
             (read_fails i).

Definition set_failbit (i : istream) : istream :=
  mk_istream (is_ifstream i) (is_open i) (badbit i) (eofbit i) true (pending i)
             (read_fails i).

(** [Traits::eof()] for [char] streams. *)
Definition EOF : Z := -1.

(** The value of a byte as [int_type], in 0..255. *)
Definition to_int_type (b : byte) : Z := Z.of_N (Byte.to_N b).

(** [rdbuf()->sgetc()]: the next byte, not extracted, when there is one
    to be had.  A file buffer that is not open has nothing to give, and
    neither has a buffer whose read fails. *)
Definition sgetc (i : istream) : option byte :=
  if is_ifstream i && negb (is_open i) then None
  else if read_fails i then None
  else hd_error (pending i).

(** The state in which a good stream is left when no byte could be
    fetched: [eofbit] is raised at the end of the data, which is also
    what a closed file buffer reports; [badbit] is raised when the read
    failed, the buffer's exception being caught by the stream. *)
Definition underflowed (i : istream) : istream :=
  if negb (is_ifstream i && negb (is_open i)) && read_fails i
  then set_badbit i
  else set_eofbit i.

(** [peek()]: on a good stream the next byte, left in place, or [EOF]
    with the stream marked as above when there is none; on a stream that
    is not good the sentry raises [failbit] and [EOF] is returned. *)
Definition peek (i : istream) : Z * istream :=
  if good i then
    match sgetc i with
    | Some b => (to_int_type b, i)
    | None => (EOF, underflowed i)
    end
  else (EOF, set_failbit i).

(** [get()]: extracts the next byte; when there is none, [failbit] is
    raised besides the mark left by the failed fetch. *)
Definition get (i : istream) : istream :=
  if good i then
    match sgetc i with
    | Some _ =>
        mk_istream (is_ifstream i) (is_open i) (badbit i) (eofbit i) (failbit i)
                   (tl (pending i)) (read_fails i)
    | None => set_failbit (underflowed i)
    end
  else set_failbit i.

(** [close()] on a file stream: the file is released and nothing remains
    to be read; the state bits stay as they are, unless the stream was
    not open, which raises [failbit]. *)
Definition close (i : istream) : istream :=
  if is_open i then
    mk_istream (is_ifstream i) false (badbit i) (eofbit i) (failbit i) []
               (read_fails i)
  else set_failbit i.

(** An output stream: its error state and the bytes written so far. *)
Record ostream : Type := mk_ostream {
  o_good : bool;
  written : list byte
}.

End Stream.
Import Stream.

(** Conversion of an [int] to [unsigned char]. *)
Definition to_unsigned_char (v : Z) : Z := v mod 256.

(** The value of a character literal such as ['P']. *)
Definition char_lit (a : ascii) : Z := Z.of_N (N_of_ascii a).

(** ** Images *)

(** Modelled from the spec: [cvd/image.h] is not part of this header.  An
    image owns a buffer of pixels and an explicit two-dimensional size. *)
Record ImageRef : Type := mk_ImageRef { x : Z; y : Z }.

Record Image (I : Type) : Type := mk_Image {
  size : ImageRef;
  data : list I
}.
Arguments mk_Image {I} _ _.
Arguments size {I} _.
Arguments data {I} _.

(** ** Exceptions *)

Module Exceptions.

(** The exceptions of [Exceptions::Image_IO] that this header throws.
    Whatever escapes from a codec is carried by [FromCodec], so that an
    exception records which side of the dispatch raised it. *)
Inductive Image_IO (codec_exn : Type) : Type :=
| IfstreamNotOpen
| EofBeforeImage
| UnsupportedImageType
| OpenError (name : string) (mode : string) (err : Z)
| FromCodec (e : codec_exn).

Arguments IfstreamNotOpen {codec_exn}.
Arguments EofBeforeImage {codec_exn}.
Arguments UnsupportedImageType {codec_exn}.
Arguments OpenError {codec_exn} _ _ _.
Arguments FromCodec {codec_exn} _.

(** The exceptions raised by the dispatch layer itself. *)
Definition raised_before_dispatch {codec_exn : Type} (e : Image_IO codec_exn) : bool :=
  match e with
  | FromCodec _ => false
  | _ => true
  end.

End Exceptions.
Import Exceptions.

(** The outcome of a codec call, seen from the caller of this layer. *)
Definition from_codec {codec_exn S : Type} (r : result codec_exn S)
  : result (Image_IO codec_exn) S :=
  mk_result (option_map FromCodec (thrown r)) (after r).

(** ** Image loading *)

(** The readers the header includes: [PNM::readPNM], [JPEG::readJPEG],
    [TIFF::readTIFF] and [BMP::readBMP].  Each takes the image and the
    stream by reference. *)
Record Readers (I codec_exn : Type) : Type := mk_Readers {
  readPNM : Image I -> istream -> result codec_exn (Image I * istream);
  readJPEG : Image I -> istream -> result codec_exn (Image I * istream);
  readTIFF : Image I -> istream -> result codec_exn (Image I * istream);
  readBMP : Image I -> istream -> result codec_exn (Image I * istream)
}.
Arguments mk_Readers {I codec_exn} _ _ _ _.
Arguments readPNM {I codec_exn} _ _ _.
Arguments readJPEG {I codec_exn} _ _ _.
Arguments readTIFF {I codec_exn} _ _ _.
Arguments readBMP {I codec_exn} _ _ _.

(** [template<class I> void img_load(Image<I>& im, std::istream& i)] *)
Definition img_load {I codec_exn : Type} (cfg : config) (rd : Readers I codec_exn)
    (im : Image I) (i : istream)
  : result (Image_IO codec_exn) (Image I * istream) :=
  if negb (good i) then
    if is_ifstream i && negb (is_open i)
    then throws IfstreamNotOpen (im, i)
    else throws EofBeforeImage (im, i)
  else
    let (v, i1) := peek i in
    let c := to_unsigned_char v in
    if negb (good i1) then throws EofBeforeImage (im, i1)
    else if c =? char_lit "P"%char then from_codec (readPNM rd im i1)
    else if CVD_IMAGE_HAVE_JPEG cfg && (c =? 255) then from_codec (readJPEG rd im i1)
    else if CVD_IMAGE_HAVE_TIFF cfg && (c =? char_lit "I"%char) then from_codec (readTIFF rd im i1)
    else if c =? char_lit "B"%char then from_codec (readBMP rd im i1)
    else throws UnsupportedImageType (im, i1).

(** ** The file system, as the stream constructors see it *)

(** What opening a path gives: the thing opened, or the error code the
    operating system leaves in [errno]. *)
Inductive open_result (A : Type) : Type :=
| Opened (a : A)
| Refused (err : Z).
Arguments Opened {A} _.
Arguments Refused {A} _.

Record OS : Type := mk_OS {
  open_for_reading : string -> open_result (list byte);
  open_for_writing : string -> open_result unit
}.

(** [std::ifstream i(s.c_str(), std::ios::in|std::ios::binary)]: the
    stream constructed and the value of [errno] afterwards.  A failed
    open leaves the stream closed with [failbit] set. *)
Definition ifstream_ctor (os : OS) (s : string) (errno : Z) : istream * Z :=
  match open_for_reading os s with
  | Opened bytes => (mk_istream true true false false false bytes false, errno)
  | Refused err => (mk_istream true false false false true [] false, err)
  end.

(** [std::ofstream out(name.c_str(), std::ios::out|std::ios::binary)] *)
Definition ofstream_ctor (os : OS) (name : string) (errno : Z) : ostream * Z :=
  match open_for_writing os name with
  | Opened _ => (mk_ostream true [], errno)
  | Refused err => (mk_ostream false [], err)
  end.

(** [template<class I> void img_load(Image<I>& im, const std::string& s)].
    The stream is a local of the call; what remains afterwards is the
    image and [errno]. *)
Definition img_load_file {I codec_exn : Type} (cfg : config) (rd : Readers I codec_exn)
    (os : OS) (errno : Z) (im : Image I) (s : string)
  : result (Image_IO codec_exn) (Image I * Z) :=
  let (i, errno1) := ifstream_ctor os s errno in
  if negb (good i) then throws (OpenError s "for reading" errno1) (im, errno1)
  else
    let r := img_load cfg rd im i in
    mk_result (thrown r) (fst (after r), errno1).

(** ** The [ImageType] enumeration *)

Module ImageType.

(** The enumerators that [img_save] switches on. *)
Inductive ImageType : Type := PNM | PS | EPS | BMP | JPEG.

Definition name (t : ImageType) : string :=
  match t with
  | PNM => "PNM"
  | PS => "PS"
  | EPS => "EPS"
  | BMP => "BMP"
  | JPEG => "JPEG"
  end.

(** The last line of the enumerator list is the token
    [CVD_IMAGE_HAVE_JPEG].  Where the macro is defined it supplies the
    enumerator [JPEG] and the comma after it (the one [img_save] names
    [ImageType::JPEG]); where it is not, the token is left as it stands
    and is an enumerator of that name. *)
Definition last_enumerator (cfg : config) : string :=
  if CVD_IMAGE_HAVE_JPEG cfg then "JPEG" else "CVD_IMAGE_HAVE_JPEG".

(** The enumerators of [enum ImageType], in declaration order. *)
Definition enumerators (cfg : config) : list string :=
  ["PNM"; "PS"; "EPS"; "BMP"; last_enumerator cfg].

End ImageType.
Import ImageType.

(** The format tag of the specification, with the two codec-dependent
    members present when the codec is available. *)
Definition FormatTag_of_spec (cfg : config) : list string :=
  ["PNM"; "BMP"]
  ++ (if CVD_IMAGE_HAVE_JPEG cfg then ["JPEG"] else [])
  ++ (if CVD_IMAGE_HAVE_TIFF cfg then ["TIFF"] else [])
  ++ ["PS"; "EPS"].

(** The reading of the specification: the enumerators are the six format
    tags, [JPEG] and [TIFF] being there when their codec is. *)
Definition ImageType_is_FormatTag (cfg : config) : Prop :=
  forall s : string, In s (enumerators cfg) <-> In s (FormatTag_of_spec cfg).

(** ** The default bit depth on saving *)

Module Pixel.

(** The two members of [Pixel::traits<T>] that [save_default] reads. *)
Record traits : Type := mk_traits {
  integral : bool;
  bits_used : Z
}.

End Pixel.

Module Internal.
Section SaveDefault.

(** Pixel types, their component types, [Pixel::Component<C>::type] and
    [Pixel::traits<T>] are declared elsewhere in the library. *)
Variables PixelType ComponentType : Type.
Variable Component : PixelType -> ComponentType.
Variable traits : ComponentType -> Pixel.traits.

(** [save_default_<C, i>]: the primary template, and its partial
    specialisation at [i = 1], the only one to read [bits_used]. *)
Definition save_default_ (C : PixelType) (i : Z) : bool :=
  if i =? 1 then Pixel.bits_used (traits (Component C)) >? 8
  else true.

(** [save_default<C>::use_16bit] *)
Definition save_default (C : PixelType) : bool :=
  save_default_ C (Z.b2z (Pixel.integral (traits (Component C)))).

End SaveDefault.
End Internal.

(** ** Image saving *)

(** The writers the header includes. *)
Record Writers (I codec_exn : Type) : Type := mk_Writers {
  writePNM : Image I -> ostream -> result codec_exn ostream;
  writeJPEG : Image I -> ostream -> result codec_exn ostream;
  writePS : Image I -> ostream -> result codec_exn ostream;
  writeEPS : Image I -> ostream -> result codec_exn ostream;
  writeBMP : Image I -> ostream -> result codec_exn ostream
}.
Arguments mk_Writers {I codec_exn} _ _ _ _ _.
Arguments writePNM {I codec_exn} _ _ _.
Arguments writeJPEG {I codec_exn} _ _ _.
Arguments writePS {I codec_exn} _ _ _.
Arguments writeEPS {I codec_exn} _ _ _.
Arguments writeBMP {I codec_exn} _ _ _.

(** [img_save(const BasicImage<PixelType>& im, std::ostream& o, ImageType::ImageType t)] *)
Definition img_save {I codec_exn : Type} (wr : Writers I codec_exn)
    (im : Image I) (o : ostream) (t : ImageType)
  : result (Image_IO codec_exn) ostream :=
  match t with
  | PNM => from_codec (writePNM wr im o)
  | JPEG => from_codec (writeJPEG wr im o)
  | PS => from_codec (writePS wr im o)
  | EPS => from_codec (writeEPS wr im o)
  | BMP => from_codec (writeBMP wr im o)
  end.

(** [img_save(const BasicImage<PixelType>& im, const std::string& name, ImageType::ImageType t)].
    What remains afterwards is what went to the file, and [errno]. *)
Definition img_save_file {I codec_exn : Type} (wr : Writers I codec_exn)
    (os : OS) (errno : Z) (im : Image I) (name : string) (t : ImageType)
  : result (Image_IO codec_exn) (ostream * Z) :=
  let (out, errno1) := ofstream_ctor os name errno in
  if negb (o_good out) then throws (OpenError name "for writing" errno1) (out, errno1)
  else
    let r := img_save wr im out t in
    mk_result (thrown r) (after r, errno1).

(** *** String operations used by the extension lookup *)

(** [name.rfind('.')]: the highest position holding the character, [None]
    standing for [std::string::npos]. *)
Fixpoint rfind (c : ascii) (s : string) : option nat :=
  match s with
  | EmptyString => None
  | String a s' =>
      match rfind c s' with
      | Some k => Some (S k)
      | None => if Ascii.eqb a c then Some O else None
      end
  end.

(** [name.substr(pos, n)], for [pos] within the string. *)
Definition substr (s : string) (pos n : nat) : string := substring pos n s.

(** [tolower] in the "C" locale. *)
Definition tolower (c : ascii) : ascii :=
  let n := N_of_ascii c in
  if ((65 <=? n) && (n <=? 90))%N then ascii_of_N (n + 32) else c.

(** The loop [for (i = 0; i < suffix.length(); i++) suffix[i] = tolower(suffix[i])]. *)
Fixpoint tolower_all (s : string) : string :=
  match s with
  | EmptyString => EmptyString
  | String a s' => String (tolower a) (tolower_all s')
  end.

(** [img_save(const BasicImage<PixelType>& im, const std::string& name)].
    Positions are [size_t]; [dot] is below the length, so neither
    [dot+1] nor [name.length()-dot-1] wraps. *)
Definition img_save_by_name {I codec_exn : Type} (wr : Writers I codec_exn)
    (os : OS) (errno : Z) (im : Image I) (name : string)
  : result (Image_IO codec_exn) (ostream * Z) :=
  match rfind "." name with
  | None => img_save_file wr os errno im name PNM
  | Some dot =>
      let suffix := substr name (dot + 1) (String.length name - dot - 1) in
      let suffix := tolower_all suffix in
      if (suffix =? "jpg")%string then img_save_file wr os errno im name JPEG
      else if (suffix =? "ps")%string then img_save_file wr os errno im name PS
      else if (suffix =? "eps")%string then img_save_file wr os errno im name EPS
      else if (suffix =? "bmp")%string then img_save_file wr os errno im name BMP
      else img_save_file wr os errno im name PNM
  end.

(** *** Legacy entry points *)

Definition pnm_save {I codec_exn : Type} (wr : Writers I codec_exn)
    (im : Image I) (o : ostream) : result (Image_IO codec_exn) ostream :=
  img_save wr im o PNM.

Definition pnm_load {I codec_exn : Type} (cfg : config) (rd : Readers I codec_exn)
    (im : Image I) (i : istream) : result (Image_IO codec_exn) (Image I * istream) :=
  img_load cfg rd im i.


(** ** A sample instantiation

    Concrete codecs, streams and a file system on which the definitions
    above can be run. *)

Module Sample.

(** A reader that leaves a one-pixel image holding [tag] and does not
    touch the stream, so that its result shows the stream it was given. *)
Definition tagging_reader (tag : Z) (im : Image Z) (i : istream)
  : result string (Image Z * istream) :=
  returns (mk_Image (mk_ImageRef 1 1) [tag], i).

Definition readers : Readers Z string :=
  mk_Readers (tagging_reader 1) (tagging_reader 2) (tagging_reader 3) (tagging_reader 4).

(** A writer that appends one byte naming the format. *)
Definition tagging_writer (b : byte) (im : Image Z) (o : ostream)
  : result string ostream :=
  returns (mk_ostream (o_good o) (written o ++ [b])).

Definition writers : Writers Z string :=
  mk_Writers (tagging_writer "P"%byte) (tagging_writer xff)
             (tagging_writer "%"%byte) (tagging_writer "E"%byte)
             (tagging_writer "B"%byte).

Definition all_codecs : config := mk_config true true.
Definition no_optional_codecs : config := mk_config false false.

Definition blank : Image Z := mk_Image (mk_ImageRef 0 0) [].

(** A good stream that is not a file stream, such as a string stream. *)
Definition stream_of (bytes : list byte) : istream :=
  mk_istream false false false false false bytes false.

(** A file stream whose open failed. *)
Definition unopened_ifstream : istream :=
  mk_istream true false false false true [] false.

(** A string stream read to its end. *)
Definition exhausted_stream : istream :=
  mk_istream false false false true true [] false.

(** A file system with a single readable file, in which every path but
    one can be opened for writing. *)
Definition ENOENT : Z := 2.
Definition EACCES : Z := 13.

Definition os : OS :=
  mk_OS (fun s => if (s =? "in.pgm")%string
                  then Opened ["P"%byte; "5"%byte]
                  else Refused ENOENT)
        (fun s => if (s =? "/proc/out.pnm")%string
                  then Refused EACCES
                  else Opened tt).

(** Modelled from the spec: [Pixel::traits] is declared outside this
    header.  The component types of the specification's pixel types:
    8-bit and 16-bit integers, and a floating-point type, here of 32
    bits. *)
Inductive component : Type := uchar | ushort | float.

Definition traits (c : component) : Pixel.traits :=
  match c with
  | uchar => Pixel.mk_traits true 8
  | ushort => Pixel.mk_traits true 16
  | float => Pixel.mk_traits false 32
  end.

(** Pixel types: a grey level or three colour channels of a component. *)
Inductive pixel : Type := Grey (c : component) | Rgb (c : component).

Definition Component (p : pixel) : component :=
  match p with
  | Grey c => c
  | Rgb c => c
  end.

End Sample.

(** *** Readings of the specification

    What the specification's words mean, said without the functions of
    the code, to state the properties against. *)

(** The upper-case letters [A] to [Z]. *)
Definition is_upper (c : ascii) : bool :=
  ((65 <=? N_of_ascii c) && (N_of_ascii c <=? 90))%N.

(** Two characters that are the same but for the case of a letter: equal,
    or an upper-case letter and the lower-case letter 32 places above
    it. *)
Definition same_letter (a b : ascii) : bool :=
  Ascii.eqb a b
  || (is_upper a && (N_of_ascii a + 32 =? N_of_ascii b)%N)
  || (is_upper b && (N_of_ascii b + 32 =? N_of_ascii a)%N).

(** Two strings that differ in the case of their letters at most. *)
Fixpoint same_ignoring_case (s t : string) : bool :=
  match s, t with
  | EmptyString, EmptyString => true
  | String a s', String b t' => same_letter a b && same_ignoring_case s' t'
  | _, _ => false
  end.

(** A string without upper-case letters. *)
Fixpoint no_upper (s : string) : bool :=
  match s with
  | EmptyString => true
  | String a s' => negb (is_upper a) && no_upper s'
  end.



(** What a program may have done with a file stream before handing it
    to [img_load]. *)
Inductive stream_op : Type := Get | Close.

Definition run_op (i : istream) (op : stream_op) : istream :=
  match op with
  | Get => get i
  | Close => close i
  end.

Definition run_ops (ops : list stream_op) (i : istream) : istream :=
  fold_left run_op ops i.

(** The specification on file streams: [IfstreamNotOpen] is for a file
    stream whose file was never opened, so a stream that the constructor
    did open does not get it, whatever was done with it since. *)
Definition IfstreamNotOpen_only_if_never_opened {I codec_exn : Type}
    (cfg : config) (rd : Readers I codec_exn) (im : Image I)
    (os : OS) (s : string) (ops : list stream_op) : Prop :=
  is_open (fst (ifstream_ctor os s 0)) = true ->
  thrown (img_load cfg rd im (run_ops ops (fst (ifstream_ctor os s 0))))
    <> Some IfstreamNotOpen.

(** The chain of comparisons that ends [img_save(im, name)], as a
    function of the lower-cased suffix. *)
Definition format_of_extension (ext : string) : ImageType :=
  if (ext =? "jpg")%string then JPEG
  else if (ext =? "ps")%string then PS
  else if (ext =? "eps")%string then EPS
  else if (ext =? "bmp")%string then BMP
  else PNM.

Module SampleFailures.

(** A writer that loses the stream without throwing: it returns with the
    stream no longer good and nothing written. *)
Definition silent_writer (im : Image Z) (o : ostream) : result string ostream :=
  returns (mk_ostream false (written o)).

Definition silent_writers : Writers Z string :=
  mk_Writers silent_writer silent_writer silent_writer silent_writer silent_writer.

(** A reader that resizes the image and then throws. *)
Definition throwing_reader (im : Image Z) (i : istream)
  : result string (Image Z * istream) :=
  throws "malformed" (mk_Image (mk_ImageRef 2 2) [], i).

Definition throwing_readers : Readers Z string :=
  mk_Readers throwing_reader throwing_reader throwing_reader throwing_reader.

(** A file system with an empty file, a PNM file, and nothing else. *)
Definition os : OS :=
  mk_OS (fun s => if (s =? "empty.pgm")%string then Opened []
                  else if (s =? "in.pgm")%string then Opened ["P"%byte; "5"%byte]
                  else Refused Sample.ENOENT)
        (fun s => if (s =? "/proc/out.jpg")%string
                  then Refused Sample.EACCES
                  else Opened tt).



End SampleFailures.

(** * Properties *)

(** ** Loading from a stream *)

Section Load.

Variables I codec_exn : Type.
Variable cfg : config.
Variable rd : Readers I codec_exn.

(** On a good stream with a byte to give, [peek] returns that byte and
    leaves the stream as it found it. *)
Lemma peek_available (i : istream) (b : byte) :
  good i = true -> sgetc i = Some b -> peek i = (to_int_type b, i).
Proof.
  intros Hg Hb. unfold peek. now rewrite Hg, Hb.
Qed.

(** On a good stream with nothing to give, [peek] raises [eofbit]. *)
Lemma peek_at_end (i : istream) :
  good i = true -> sgetc i = None -> peek i = (EOF, underflowed i).
Proof.
  intros Hg Hb. unfold peek. now rewrite Hg, Hb.
Qed.

Lemma set_eofbit_not_good (i : istream) : good (set_eofbit i) = false.
Proof.
  unfold good, set_eofbit; simpl. now rewrite orb_true_r.
Qed.

Lemma underflowed_not_good (i : istream) : good (underflowed i) = false.
Proof.
  unfold underflowed.
  destruct (negb (is_ifstream i && negb (is_open i)) && read_fails i).
  - reflexivity.
  - apply set_eofbit_not_good.
Qed.


(** Where reading does not fail, and on a closed file stream, a failed
    fetch means the end of data. *)
Lemma underflowed_at_end (i : istream) :
  read_fails i = false \/ (is_ifstream i = true /\ is_open i = false) ->
  underflowed i = set_eofbit i.
Proof.
  unfold underflowed. intros [-> | [-> ->]]; [now rewrite andb_false_r|reflexivity].
Qed.

Lemma to_int_type_range (b : byte) : 0 <= to_int_type b < 256.
Proof.
  unfold to_int_type. pose proof (Byte.to_N_bounded b). lia.
Qed.

Lemma to_unsigned_char_byte (b : byte) : to_unsigned_char (to_int_type b) = to_int_type b.
Proof.
  unfold to_unsigned_char. apply Z.mod_small, to_int_type_range.
Qed.

(** [img_load] on a good stream whose next byte is [b], with the sniffing
    done: what is left is the comparison chain on the value of [b]. *)
Lemma img_load_available (im : Image I) (i : istream) (b : byte) :
  good i = true -> sgetc i = Some b ->
  img_load cfg rd im i =
    let c := to_int_type b in
    if c =? char_lit "P" then from_codec (readPNM rd im i)
    else if CVD_IMAGE_HAVE_JPEG cfg && (c =? 255) then from_codec (readJPEG rd im i)
    else if CVD_IMAGE_HAVE_TIFF cfg && (c =? char_lit "I") then from_codec (readTIFF rd im i)
    else if c =? char_lit "B" then from_codec (readBMP rd im i)
    else throws UnsupportedImageType (im, i).
Proof.
  intros Hg Hb. unfold img_load.
  rewrite Hg; simpl negb; cbv iota.
  rewrite (peek_available i b Hg Hb).
  rewrite Hg; simpl negb; cbv iota.
  now rewrite to_unsigned_char_byte.
Qed.

(** C1.  On a readable stream whose first unconsumed byte is [b], the
    reader is chosen by the value of [b] alone: ['P'] gives the PNM
    reader; [0xff] the JPEG reader where JPEG support is compiled in;
    ['I'] the TIFF reader where TIFF support is compiled in; ['B'] the
    BMP reader; every other byte, which includes [0xff] and ['I'] where
    their codec is compiled out, makes [img_load] throw
    [UnsupportedImageType]. *)
Theorem img_load_selects_codec_by_first_byte (im : Image I) (i : istream) (b : byte) :
  good i = true ->
  sgetc i = Some b ->
  let c := to_int_type b in
  (c = char_lit "P" -> img_load cfg rd im i = from_codec (readPNM rd im i)) /\
  (c = 255 -> CVD_IMAGE_HAVE_JPEG cfg = true ->
     img_load cfg rd im i = from_codec (readJPEG rd im i)) /\
  (c = char_lit "I" -> CVD_IMAGE_HAVE_TIFF cfg = true ->
     img_load cfg rd im i = from_codec (readTIFF rd im i)) /\
  (c = char_lit "B" -> img_load cfg rd im i = from_codec (readBMP rd im i)) /\
  (c <> char_lit "P" ->
   (c = 255 -> CVD_IMAGE_HAVE_JPEG cfg = false) ->
   (c = char_lit "I" -> CVD_IMAGE_HAVE_TIFF cfg = false) ->
   c <> char_lit "B" ->
     img_load cfg rd im i = throws UnsupportedImageType (im, i)).
Proof.
  intros Hg Hb c.
  rewrite (img_load_available im i b Hg Hb). fold c. cbv zeta.
  repeat split.
  - intros ->. reflexivity.
  - intros -> ->. reflexivity.
  - intros -> ->. simpl. now destruct (CVD_IMAGE_HAVE_JPEG cfg).
  - intros ->. simpl. rewrite !andb_false_r. reflexivity.
  - intros HP HJ HT HB.
    destruct (Z.eqb_spec c (char_lit "P")) as [e|_]; [contradiction|].
    destruct (Z.eqb_spec c (char_lit "B")) as [e|_]; [contradiction|].
    destruct (Z.eqb_spec c 255) as [e|_].
    + rewrite (HJ e). simpl.
      destruct (Z.eqb_spec c (char_lit "I")) as [e'|_].
      * rewrite (HT e'). reflexivity.
      * now rewrite andb_false_r.
    + rewrite andb_false_r.
      destruct (Z.eqb_spec c (char_lit "I")) as [e'|_].
      * rewrite (HT e'). reflexivity.
      * now rewrite andb_false_r.
Qed.

(** A stream that is not good at entry is never peeked: the file-stream
    test alone decides between the two exceptions. *)
Lemma img_load_not_good (im : Image I) (i : istream) :
  good i = false ->
  img_load cfg rd im i =
    if is_ifstream i && negb (is_open i)
    then throws IfstreamNotOpen (im, i)
    else throws EofBeforeImage (im, i).
Proof.
  intros Hg. unfold img_load. now rewrite Hg.
Qed.

(** A good stream with nothing to give fails at the test after [peek]. *)
Lemma img_load_at_end (im : Image I) (i : istream) :
  good i = true -> sgetc i = None ->
  img_load cfg rd im i = throws EofBeforeImage (im, underflowed i).
Proof.
  intros Hg Hb. unfold img_load.
  rewrite Hg; simpl negb; cbv iota.
  rewrite (peek_at_end i Hg Hb).
  now rewrite underflowed_not_good.
Qed.


(** On a readable stream [img_load] either refuses the first byte or
    hands the image and the stream, as they were at entry, to one of the
    four readers. *)
Lemma img_load_available_cases (im : Image I) (i : istream) (b : byte) :
  good i = true ->
  sgetc i = Some b ->
  img_load cfg rd im i = throws UnsupportedImageType (im, i) \/
  exists read,
    In read [readPNM rd; readJPEG rd; readTIFF rd; readBMP rd] /\
    img_load cfg rd im i = from_codec (read im i).
Proof.
  intros Hg Hb.
  rewrite (img_load_available im i b Hg Hb). cbv zeta.
  destruct (to_int_type b =? char_lit "P").
  { right. exists (readPNM rd). simpl. auto. }
  destruct (CVD_IMAGE_HAVE_JPEG cfg && (to_int_type b =? 255)).
  { right. exists (readJPEG rd). simpl. auto. }
  destruct (CVD_IMAGE_HAVE_TIFF cfg && (to_int_type b =? char_lit "I")).
  { right. exists (readTIFF rd). simpl. auto. }
  destruct (to_int_type b =? char_lit "B").
  { right. exists (readBMP rd). simpl. auto 6. }
  left. reflexivity.
Qed.

(** C7.  Sniffing looks at one byte and takes none: on a readable stream
    with first byte [b], [peek] hands back the stream it was given, and
    either no reader is called or the reader called receives the very
    stream [img_load] was entered with, whose first pending byte is still
    [b]. *)
Theorem img_load_sniff_consumes_nothing (im : Image I) (i : istream) (b : byte) :
  good i = true ->
  sgetc i = Some b ->
  peek i = (to_int_type b, i) /\
  hd_error (pending i) = Some b /\
  (img_load cfg rd im i = throws UnsupportedImageType (im, i) \/
   exists read,
     In read [readPNM rd; readJPEG rd; readTIFF rd; readBMP rd] /\
     img_load cfg rd im i = from_codec (read im i)).
Proof.
  intros Hg Hb. split; [exact (peek_available i b Hg Hb)|]. split.
  - unfold sgetc in Hb.
    destruct (is_ifstream i && negb (is_open i)); [discriminate|].
    destruct (read_fails i); [discriminate|exact Hb].
  - exact (img_load_available_cases im i b Hg Hb).
Qed.

(** An exception that left a codec is never one of the layer's own. *)
Lemma from_codec_not_before_dispatch {S : Type} (r : result codec_exn S) (e : Image_IO codec_exn) :
  thrown (from_codec r) = Some e -> raised_before_dispatch e = false.
Proof.
  unfold from_codec; simpl. destruct (thrown r); simpl; [|discriminate].
  intros [= <-]. reflexivity.
Qed.

(** When [img_load] throws one of its own exceptions, the image is the
    one it was given. *)
Lemma img_load_own_exception_keeps_image (im : Image I) (i : istream) (e : Image_IO codec_exn) :
  thrown (img_load cfg rd im i) = Some e ->
  raised_before_dispatch e = true ->
  fst (after (img_load cfg rd im i)) = im.
Proof.
  intros Ht He.
  destruct (good i) eqn:Hg.
  - destruct (sgetc i) as [b|] eqn:Hb.
    + destruct (img_load_available_cases im i b Hg Hb) as [H|[r [_ H]]];
        rewrite H in *; [reflexivity|].
      apply from_codec_not_before_dispatch in Ht. congruence.
    + rewrite (img_load_at_end im i Hg Hb). reflexivity.
  - rewrite (img_load_not_good im i Hg).
    destruct (is_ifstream i && negb (is_open i)); reflexivity.
Qed.

(** C10, amended.  [IfstreamNotOpen] is thrown exactly when the stream
    is a [std::ifstream] that is not open at the time of the call and is
    not good, whether its file was never opened or was opened and has
    been closed since; every other stream that is not good at entry,
    whatever its type, gets [EofBeforeImage]. *)
Theorem img_load_IfstreamNotOpen_only_for_closed_ifstream (im : Image I) (i : istream) :
  (thrown (img_load cfg rd im i) = Some IfstreamNotOpen <->
     is_ifstream i = true /\ is_open i = false /\ good i = false) /\
  (good i = false -> (is_ifstream i = false \/ is_open i = true) ->
     img_load cfg rd im i = throws EofBeforeImage (im, i)).
Proof.
  split; [split|].
  - intros Ht.
    destruct (good i) eqn:Hg.
    + exfalso. destruct (sgetc i) as [b|] eqn:Hb.
      * destruct (img_load_available_cases im i b Hg Hb) as [H|[r [_ H]]];
          rewrite H in Ht; [discriminate|].
        apply from_codec_not_before_dispatch in Ht. discriminate.
      * rewrite (img_load_at_end im i Hg Hb) in Ht. discriminate.
    + rewrite (img_load_not_good im i Hg) in Ht.
      destruct (is_ifstream i); destruct (is_open i); simpl in Ht;
        try discriminate. auto.
  - intros (Hf & Ho & Hg).
    rewrite (img_load_not_good im i Hg), Hf, Ho. reflexivity.
  - intros Hg H. rewrite (img_load_not_good im i Hg).
    destruct H as [-> | ->]; [reflexivity|]. now rewrite andb_false_r.
Qed.

End Load.

(** ** Loading from and saving to a path *)

Section Files.

Variables I codec_exn : Type.
Variable cfg : config.
Variable rd : Readers I codec_exn.
Variable wr : Writers I codec_exn.
Variable os : OS.

(** The four exceptions the dispatch layer raises by itself. *)
Lemma own_exceptions (e : Image_IO codec_exn) :
  e = IfstreamNotOpen \/ e = EofBeforeImage \/ e = UnsupportedImageType \/
  (exists name mode err, e = OpenError name mode err) ->
  raised_before_dispatch e = true.
Proof.
  intros [-> | [-> | [-> | (name & mode & err & ->)]]]; reflexivity.
Qed.

(** A path that cannot be opened for reading stops [img_load] at once. *)
Lemma img_load_file_refused (errno : Z) (im : Image I) (s : string) (err : Z) :
  open_for_reading os s = Refused err ->
  img_load_file cfg rd os errno im s = throws (OpenError s "for reading" err) (im, err).
Proof.
  intros Ho. unfold img_load_file, ifstream_ctor. rewrite Ho. reflexivity.
Qed.

(** A path that opens is loaded as the stream over its bytes. *)
Lemma img_load_file_opened (errno : Z) (im : Image I) (s : string) (bytes : list byte) :
  open_for_reading os s = Opened bytes ->
  img_load_file cfg rd os errno im s =
    let r := img_load cfg rd im (mk_istream true true false false false bytes false) in
    mk_result (thrown r) (fst (after r), errno).
Proof.
  intros Ho. unfold img_load_file, ifstream_ctor. rewrite Ho. reflexivity.
Qed.

(** C5.  A path that cannot be opened for writing makes
    [img_save(im, name, t)] throw [OpenError] with that path, the mode
    ["for writing"] and the error code of the operating system; a path
    that cannot be opened for reading makes [img_load(im, s)] throw
    [OpenError] with the path, ["for reading"] and the error code. *)
Theorem open_failure_throws_OpenError
    (errno : Z) (im : Image I) (name : string) (t : ImageType) (err : Z) :
  (open_for_writing os name = Refused err ->
     thrown (img_save_file wr os errno im name t)
       = Some (OpenError name "for writing" err)) /\
  (open_for_reading os name = Refused err ->
     thrown (img_load_file cfg rd os errno im name)
       = Some (OpenError name "for reading" err)).
Proof.
  split; intros Ho.
  - unfold img_save_file, ofstream_ctor. rewrite Ho. reflexivity.
  - rewrite (img_load_file_refused errno im name err Ho). reflexivity.
Qed.

(** C9.  When [img_load], from a stream or from a path, throws one of
    [OpenError], [IfstreamNotOpen], [EofBeforeImage] and
    [UnsupportedImageType] before any reader is called, the image is
    exactly the one passed in: neither its size nor its pixels have
    changed. *)
Theorem img_load_failure_before_dispatch_keeps_image
    (errno : Z) (im : Image I) (i : istream) (s : string) (e : Image_IO codec_exn) :
  e = IfstreamNotOpen \/ e = EofBeforeImage \/ e = UnsupportedImageType \/
  (exists name mode err, e = OpenError name mode err) ->
  (thrown (img_load cfg rd im i) = Some e ->
     fst (after (img_load cfg rd im i)) = im) /\
  (thrown (img_load_file cfg rd os errno im s) = Some e ->
     fst (after (img_load_file cfg rd os errno im s)) = im).
Proof.
  intros He. apply own_exceptions in He. split.
  - intros Ht. exact (img_load_own_exception_keeps_image I codec_exn cfg rd im i e Ht He).
  - destruct (open_for_reading os s) as [bytes|err] eqn:Ho.
    + rewrite (img_load_file_opened errno im s bytes Ho). cbv zeta. simpl.
      intros Ht.
      exact (img_load_own_exception_keeps_image I codec_exn cfg rd im _ e Ht He).
    + rewrite (img_load_file_refused errno im s err Ho). reflexivity.
Qed.

End Files.

(** ** Saving by file name *)

Section Names.

Local Open Scope string_scope.

Lemma rfind_absent (c : ascii) (s : string) :
  ~ In c (list_ascii_of_string s) -> rfind c s = None.
Proof.
  induction s as [|a s IH]; simpl; intros Hn; [reflexivity|].
  rewrite IH by tauto.
  destruct (Ascii.eqb_spec a c) as [->|_]; [tauto|reflexivity].
Qed.

(** The last occurrence is the one after which the character no longer
    appears. *)
Lemma rfind_last (c : ascii) (stem suffix : string) :
  ~ In c (list_ascii_of_string suffix) ->
  rfind c (stem ++ String c suffix) = Some (String.length stem).
Proof.
  intros Hn. induction stem as [|a stem IH]; simpl.
  - rewrite (rfind_absent c suffix Hn), Ascii.eqb_refl. reflexivity.
  - rewrite IH. reflexivity.
Qed.

(** A name that has the character splits at its last occurrence. *)
Lemma split_at_last (c : ascii) (s : string) :
  In c (list_ascii_of_string s) ->
  exists stem suffix,
    s = stem ++ String c suffix /\ ~ In c (list_ascii_of_string suffix).
Proof.
  induction s as [|a s IH]; simpl; [tauto|].
  intros Hin.
  destruct (in_dec ascii_dec c (list_ascii_of_string s)) as [Hs|Hs].
  - destruct (IH Hs) as (stem & suffix & -> & Hn).
    exists (String a stem), suffix. split; [reflexivity|exact Hn].
  - destruct Hin as [->|Hin]; [|contradiction].
    exists EmptyString, s. split; [reflexivity|exact Hs].
Qed.

Lemma substring_all (s : string) : substring 0 (String.length s) s = s.
Proof.
  induction s as [|a s IH]; simpl; [reflexivity|]. now rewrite IH.
Qed.

(** What [name.substr(dot+1, name.length()-dot-1)] extracts. *)
Lemma substr_after_dot (c : ascii) (stem suffix : string) :
  let name := stem ++ String c suffix in
  let dot := String.length stem in
  substr name (dot + 1) (String.length name - dot - 1) = suffix.
Proof.
  unfold substr. induction stem as [|a stem IH]; simpl.
  - rewrite Nat.sub_0_r. apply substring_all.
  - exact IH.
Qed.

Variables I codec_exn : Type.
Variable wr : Writers I codec_exn.
Variable os : OS.

(** [img_save(im, name)] for a name with a dot: the text after the last
    dot, in lower case, is looked up in the chain of comparisons. *)
Lemma img_save_by_name_suffix (errno : Z) (im : Image I) (stem suffix : string) :
  ~ In "."%char (list_ascii_of_string suffix) ->
  let name := stem ++ "." ++ suffix in
  let ext := tolower_all suffix in
  img_save_by_name wr os errno im name =
    if (ext =? "jpg")%string then img_save_file wr os errno im name JPEG
    else if (ext =? "ps")%string then img_save_file wr os errno im name PS
    else if (ext =? "eps")%string then img_save_file wr os errno im name EPS
    else if (ext =? "bmp")%string then img_save_file wr os errno im name BMP
    else img_save_file wr os errno im name PNM.
Proof.
  intros Hn name ext. unfold img_save_by_name.
  unfold name at 1. simpl append at 1.
  rewrite (rfind_last "." stem suffix Hn).
  change (stem ++ String "." suffix)%string with name.
  replace (substr name (String.length stem + 1)
             (String.length name - String.length stem - 1)) with suffix
    by (symmetry; apply (substr_after_dot "." stem suffix)).
  reflexivity.
Qed.

(** [tolower] leaves alone what is not an upper-case letter and moves an
    upper-case letter 32 places up. *)
Lemma tolower_not_upper (c : ascii) : is_upper c = false -> tolower c = c.
Proof.
  unfold tolower, is_upper. cbv zeta. intros ->. reflexivity.
Qed.

Lemma tolower_upper (c : ascii) :
  is_upper c = true -> tolower c = ascii_of_N (N_of_ascii c + 32).
Proof.
  unfold tolower, is_upper. cbv zeta. intros ->. reflexivity.
Qed.

Lemma is_upper_range (c : ascii) :
  is_upper c = true -> (65 <= N_of_ascii c <= 90)%N.
Proof.
  unfold is_upper. intros H. apply andb_true_iff in H as [H1 H2].
  apply N.leb_le in H1, H2. lia.
Qed.

Lemma lower_case_of_upper_is_not_upper (a b : ascii) :
  is_upper a = true -> (N_of_ascii a + 32)%N = N_of_ascii b -> is_upper b = false.
Proof.
  intros Hu He. apply is_upper_range in Hu.
  unfold is_upper. rewrite <- He. apply andb_false_iff. right.
  apply N.leb_gt. lia.
Qed.

(** Characters that are the same but for case are lowered to the same
    character. *)
Lemma tolower_same_letter (a b : ascii) :
  same_letter a b = true -> tolower a = tolower b.
Proof.
  unfold same_letter. intros H.
  apply orb_true_iff in H as [H|H]; [apply orb_true_iff in H as [H|H]|].
  - apply Ascii.eqb_eq in H. now subst.
  - apply andb_true_iff in H as [Hu He]. apply N.eqb_eq in He.
    rewrite (tolower_upper a Hu).
    rewrite (tolower_not_upper b (lower_case_of_upper_is_not_upper a b Hu He)).
    rewrite He. apply ascii_N_embedding.
  - apply andb_true_iff in H as [Hu He]. apply N.eqb_eq in He.
    rewrite (tolower_upper b Hu).
    rewrite (tolower_not_upper a (lower_case_of_upper_is_not_upper b a Hu He)).
    rewrite He. symmetry. apply ascii_N_embedding.
Qed.

(** A character lowered to a character that is not upper case was that
    character but for case. *)
Lemma tolower_gives_same_letter (c e : ascii) :
  tolower c = e -> same_letter c e = true.
Proof.
  intros <-. unfold same_letter.
  destruct (is_upper c) eqn:Hu.
  - rewrite (tolower_upper c Hu).
    rewrite N_ascii_embedding by (apply is_upper_range in Hu; lia).
    rewrite N.eqb_refl. simpl. now rewrite orb_true_r.
  - rewrite (tolower_not_upper c Hu), Ascii.eqb_refl. reflexivity.
Qed.

Lemma tolower_all_same (s t : string) :
  same_ignoring_case s t = true -> tolower_all s = tolower_all t.
Proof.
  revert t. induction s as [|a s IH]; intros [|b t]; simpl; try discriminate.
  - reflexivity.
  - intros H. apply andb_true_iff in H as [Hl Hr].
    now rewrite (tolower_same_letter a b Hl), (IH t Hr).
Qed.

Lemma tolower_all_no_upper (s : string) : no_upper s = true -> tolower_all s = s.
Proof.
  induction s as [|a s IH]; simpl; [reflexivity|].
  intros H. apply andb_true_iff in H as [Ha Hs].
  apply negb_true_iff in Ha.
  now rewrite (tolower_not_upper a Ha), (IH Hs).
Qed.

Lemma tolower_all_gives_same (s t : string) :
  tolower_all s = t -> same_ignoring_case s t = true.
Proof.
  revert t. induction s as [|a s IH]; intros [|b t]; simpl; try discriminate.
  - reflexivity.
  - intros [= Ha Hs].
    now rewrite (tolower_gives_same_letter a b Ha), (IH t Hs).
Qed.

(** The comparison the code makes after lowering the suffix is the
    comparison without regard to case, for an extension written in lower
    case. *)
Lemma lowered_suffix_eqb (suffix ext : string) :
  no_upper ext = true ->
  (tolower_all suffix =? ext) = same_ignoring_case suffix ext.
Proof.
  intros Hn.
  destruct (String.eqb_spec (tolower_all suffix) ext) as [He|Hne].
  - symmetry. exact (tolower_all_gives_same suffix ext He).
  - destruct (same_ignoring_case suffix ext) eqn:Hs; [|reflexivity].
    exfalso. apply Hne.
    rewrite (tolower_all_same suffix ext Hs). exact (tolower_all_no_upper ext Hn).
Qed.

(** [img_save(im, name)] for a name with a dot, in terms of the suffix as
    it is written. *)
Lemma img_save_by_name_ignoring_case (errno : Z) (im : Image I) (stem suffix : string) :
  ~ In "."%char (list_ascii_of_string suffix) ->
  let name := stem ++ "." ++ suffix in
  img_save_by_name wr os errno im name =
    if same_ignoring_case suffix "jpg" then img_save_file wr os errno im name JPEG
    else if same_ignoring_case suffix "ps" then img_save_file wr os errno im name PS
    else if same_ignoring_case suffix "eps" then img_save_file wr os errno im name EPS
    else if same_ignoring_case suffix "bmp" then img_save_file wr os errno im name BMP
    else img_save_file wr os errno im name PNM.
Proof.
  intros Hn name. unfold name.
  rewrite (img_save_by_name_suffix errno im stem suffix Hn). cbv zeta.
  rewrite !lowered_suffix_eqb by reflexivity. reflexivity.
Qed.

(** C2.  [img_save(im, name)] saves under the format named by the text
    after the last ['.'] of [name], compared without regard to the case
    of its letters: [jpg] in any mixture of cases is saved as JPEG, [ps]
    as PS, [eps] as EPS, [bmp] as BMP.  A name without a dot, a name
    ending in a dot and a name with any other suffix are saved as PNM;
    the choice itself raises nothing, the call being the call of
    [img_save(im, name, t)] for the chosen [t]. *)
Theorem img_save_by_name_resolves_extension (errno : Z) (im : Image I) (name : string) :
  (~ In "."%char (list_ascii_of_string name) ->
     img_save_by_name wr os errno im name = img_save_file wr os errno im name PNM) /\
  (forall stem suffix : string,
     name = stem ++ "." ++ suffix ->
     ~ In "."%char (list_ascii_of_string suffix) ->
     (same_ignoring_case suffix "jpg" = true ->
        img_save_by_name wr os errno im name = img_save_file wr os errno im name JPEG) /\
     (same_ignoring_case suffix "ps" = true ->
        img_save_by_name wr os errno im name = img_save_file wr os errno im name PS) /\
     (same_ignoring_case suffix "eps" = true ->
        img_save_by_name wr os errno im name = img_save_file wr os errno im name EPS) /\
     (same_ignoring_case suffix "bmp" = true ->
        img_save_by_name wr os errno im name = img_save_file wr os errno im name BMP) /\
     (suffix = "" ->
        img_save_by_name wr os errno im name = img_save_file wr os errno im name PNM) /\
     (same_ignoring_case suffix "jpg" = false ->
      same_ignoring_case suffix "ps" = false ->
      same_ignoring_case suffix "eps" = false ->
      same_ignoring_case suffix "bmp" = false ->
        img_save_by_name wr os errno im name = img_save_file wr os errno im name PNM)).
Proof.
  split.
  - intros Hn. unfold img_save_by_name. now rewrite (rfind_absent "." name Hn).
  - intros stem suffix -> Hn.
    rewrite (img_save_by_name_suffix errno im stem suffix Hn). cbv zeta.
    rewrite !lowered_suffix_eqb by reflexivity.
    split; [|split; [|split; [|split; [|split]]]].
    + intros ->. reflexivity.
    + intros H. apply tolower_all_same in H. simpl in H.
      rewrite <- !(lowered_suffix_eqb suffix) by reflexivity. now rewrite H.
    + intros H. apply tolower_all_same in H. simpl in H.
      rewrite <- !(lowered_suffix_eqb suffix) by reflexivity. now rewrite H.
    + intros H. apply tolower_all_same in H. simpl in H.
      rewrite <- !(lowered_suffix_eqb suffix) by reflexivity. now rewrite H.
    + intros ->. reflexivity.
    + intros -> -> -> ->. reflexivity.
Qed.

End Names.

(** ** Streams that are not ready *)


(** C10, as stated, fails on a file stream that was opened, read to its
    end and closed: its file has been opened, and [img_load] throws
    [IfstreamNotOpen]. *)
Lemma closed_after_reading_is_IfstreamNotOpen :
  ~ IfstreamNotOpen_only_if_never_opened Sample.all_codecs Sample.readers Sample.blank
      Sample.os "in.pgm" [Get; Get; Get; Close].
Proof.
  unfold IfstreamNotOpen_only_if_never_opened. intros H.
  apply H; reflexivity.
Qed.

(** ** The enumeration of formats *)

(** C4, as stated, fails where both optional codecs are compiled in: the
    specification's tag set has [TIFF], the enumeration has not. *)
Lemma ImageType_is_not_FormatTag_with_TIFF :
  ~ ImageType_is_FormatTag Sample.all_codecs.
Proof.
  intros H. destruct (H "TIFF") as [_ H2].
  assert (Hin : In "TIFF" (enumerators Sample.all_codecs)).
  { apply H2. simpl. tauto. }
  simpl in Hin.
  repeat (destruct Hin as [Hin|Hin]; [discriminate Hin|]). exact Hin.
Qed.

(** C4, amended.  [ImageType] has the enumerators [PNM], [PS], [EPS] and
    [BMP] in every configuration and [JPEG] exactly where JPEG support is
    compiled in.  It has no [TIFF] enumerator in any configuration, with
    or without TIFF support, and none of the values [img_save] switches
    on is called [TIFF]: TIFF can be loaded but not named as a format to
    save in. *)
Theorem ImageType_enumerators_without_TIFF (cfg : config) :
  In "PNM" (enumerators cfg) /\
  In "PS" (enumerators cfg) /\
  In "EPS" (enumerators cfg) /\
  In "BMP" (enumerators cfg) /\
  (In "JPEG" (enumerators cfg) <-> CVD_IMAGE_HAVE_JPEG cfg = true) /\
  ~ In "TIFF" (enumerators cfg) /\
  (forall t : ImageType, ImageType.name t <> "TIFF") /\
  (CVD_IMAGE_HAVE_JPEG cfg = true ->
     forall s : string, In s (enumerators cfg) <-> exists t : ImageType, ImageType.name t = s).
Proof.
  unfold enumerators, last_enumerator.
  repeat split; simpl; try tauto.
  - intros H. repeat (destruct H as [H|H]; [try discriminate H|]); [|contradiction].
    destruct (CVD_IMAGE_HAVE_JPEG cfg); [reflexivity|discriminate H].
  - intros ->. tauto.
  - intros H. repeat (destruct H as [H|H]; [try discriminate H|]); [|contradiction].
    destruct (CVD_IMAGE_HAVE_JPEG cfg); discriminate H.
  - intros t. destruct t; discriminate.
  - rewrite H. intros Hin.
    repeat (destruct Hin as [<-|Hin]);
      [exists PNM|exists PS|exists EPS|exists BMP|exists JPEG|contradiction];
      reflexivity.
  - rewrite H. intros [t <-]. destruct t; simpl; tauto.
Qed.

(** ** The default bit depth *)

Section SaveDefaultPolicy.

Variables PixelType ComponentType : Type.
Variable Component : PixelType -> ComponentType.
Variable traits : ComponentType -> Pixel.traits.

Let use_16bit := Internal.save_default PixelType ComponentType Component traits.


(** X19.  [save_default] is gated on [traits::integral]: only the
    specialisation for integral component types reads [bits_used], and
    there 16-bit output is chosen exactly when it exceeds 8; for a
    component type that is not integral the primary template chooses
    16-bit output whatever [bits_used] is.  Pixel types whose component
    types have the same traits get the same default. *)
Theorem save_default_policy (C : PixelType) :
  let t := traits (Component C) in
  (Pixel.integral t = true -> (use_16bit C = true <-> Pixel.bits_used t > 8)) /\
  (Pixel.integral t = true -> (use_16bit C = false <-> Pixel.bits_used t <= 8)) /\
  (Pixel.integral t = false -> use_16bit C = true) /\
  (forall C' : PixelType, traits (Component C') = t -> use_16bit C' = use_16bit C).
Proof.
  intros t. unfold use_16bit, Internal.save_default, Internal.save_default_.
  fold t. repeat split.
  - rewrite H. simpl. intros Hb. apply Z.gtb_lt in Hb. lia.
  - rewrite H. simpl. intros Hb. apply Z.gtb_lt. lia.
  - rewrite H. simpl. intros Hb.
    destruct (Z.gtb_spec (Pixel.bits_used t) 8); [discriminate|lia].
  - rewrite H. simpl. intros Hb.
    destruct (Z.gtb_spec (Pixel.bits_used t) 8); [lia|reflexivity].
  - intros ->. reflexivity.
  - intros C' ->. reflexivity.
Qed.

End SaveDefaultPolicy.

(** * Worked examples *)

Section Examples.

Import Sample.
Local Open Scope string_scope.

(** The character tests of [img_load] compare against 80, 73 and 66. *)
Example char_lit_values :
  char_lit "P" = 80 /\ char_lit "I" = 73 /\ char_lit "B" = 66.
Proof. repeat split. Qed.

(** [EOF] converts to the [unsigned char] 255, the JPEG marker byte; the
    test of the stream state after [peek] keeps an empty stream from
    being taken for a JPEG file. *)
Example empty_stream_is_not_JPEG :
  to_unsigned_char EOF = 255 /\
  thrown (img_load all_codecs readers blank (stream_of [])) = Some EofBeforeImage.
Proof. split; reflexivity. Qed.

(** A file stream that was never opened but is still good, as after
    default construction, goes past the first test and fails at [peek]. *)
Example default_constructed_ifstream :
  thrown (img_load all_codecs readers blank (mk_istream true false false false false [] false))
    = Some EofBeforeImage.
Proof. reflexivity. Qed.

(** Without JPEG support a JPEG file is an unsupported image type. *)
Example JPEG_marker_without_JPEG_support :
  img_load no_optional_codecs readers blank (stream_of [xff; xd8])
    = throws UnsupportedImageType (blank, stream_of [xff; xd8]).
Proof. reflexivity. Qed.

(** The lookups of the specification's examples. *)
Example save_x_JPG :
  img_save_by_name writers os 0 blank "x.JPG" = img_save_file writers os 0 blank "x.JPG" JPEG.
Proof. reflexivity. Qed.

Example save_x_jpg :
  img_save_by_name writers os 0 blank "x.jpg" = img_save_file writers os 0 blank "x.jpg" JPEG.
Proof. reflexivity. Qed.

Example save_x :
  img_save_by_name writers os 0 blank "x" = img_save_file writers os 0 blank "x" PNM.
Proof. reflexivity. Qed.

Example save_x_unknownext :
  img_save_by_name writers os 0 blank "x.unknownext"
    = img_save_file writers os 0 blank "x.unknownext" PNM.
Proof. reflexivity. Qed.

Example save_x_dot :
  img_save_by_name writers os 0 blank "x." = img_save_file writers os 0 blank "x." PNM.
Proof. reflexivity. Qed.

(** Only the text after the last dot counts, directory separators and
    all. *)
Example save_dotted_directory :
  rfind "." "a.eps/x" = Some 1%nat /\
  img_save_by_name writers os 0 blank "a.eps/x" = img_save_file writers os 0 blank "a.eps/x" PNM.
Proof. split; reflexivity. Qed.

End Examples.

(** * The properties on the sample instantiation *)

Section Witnesses.

Import Sample.
Local Open Scope string_scope.

(** Each lemma below applies one of the theorems above to the sample
    codecs and evaluates its premises there. *)

Lemma img_load_selects_codec_by_first_byte_witness :
  good (stream_of ["P"%byte; "5"%byte]) = true /\
  sgetc (stream_of ["P"%byte; "5"%byte]) = Some "P"%byte /\
  img_load all_codecs readers blank (stream_of ["P"%byte; "5"%byte])
    = from_codec (readPNM readers blank (stream_of ["P"%byte; "5"%byte])).
Proof.
  split; [reflexivity|]. split; [reflexivity|].
  exact (proj1 (img_load_selects_codec_by_first_byte Z string all_codecs readers
                  blank (stream_of ["P"%byte; "5"%byte]) "P"%byte eq_refl eq_refl)
               eq_refl).
Defined.


Lemma img_load_sniff_consumes_nothing_witness :
  good (stream_of [xff; xd8]) = true /\
  sgetc (stream_of [xff; xd8]) = Some xff /\
  peek (stream_of [xff; xd8]) = (255, stream_of [xff; xd8]) /\
  hd_error (pending (stream_of [xff; xd8])) = Some xff.
Proof.
  split; [reflexivity|]. split; [reflexivity|].
  pose proof (img_load_sniff_consumes_nothing Z string all_codecs readers
                blank (stream_of [xff; xd8]) xff eq_refl eq_refl) as H.
  split; [exact (proj1 H)|exact (proj1 (proj2 H))].
Defined.

Lemma img_load_IfstreamNotOpen_only_for_closed_ifstream_witness :
  (thrown (img_load all_codecs readers blank unopened_ifstream) = Some IfstreamNotOpen /\
   is_ifstream unopened_ifstream = true /\
   is_open unopened_ifstream = false /\
   good unopened_ifstream = false) /\
  (good exhausted_stream = false /\
   is_ifstream exhausted_stream = false /\
   img_load all_codecs readers blank exhausted_stream
     = throws EofBeforeImage (blank, exhausted_stream)).
Proof.
  split.
  - split; [reflexivity|].
    exact (proj1 (proj1 (img_load_IfstreamNotOpen_only_for_closed_ifstream Z string
                           all_codecs readers blank unopened_ifstream)) eq_refl).
  - split; [reflexivity|]. split; [reflexivity|].
    exact (proj2 (img_load_IfstreamNotOpen_only_for_closed_ifstream Z string
                    all_codecs readers blank exhausted_stream) eq_refl (or_introl eq_refl)).
Defined.

Lemma open_failure_throws_OpenError_witness :
  (open_for_writing os "/proc/out.pnm" = Refused EACCES /\
   thrown (img_save_file writers os 0 blank "/proc/out.pnm" PNM)
     = Some (OpenError "/proc/out.pnm" "for writing" EACCES)) /\
  (open_for_reading os "missing.pgm" = Refused ENOENT /\
   thrown (img_load_file all_codecs readers os 0 blank "missing.pgm")
     = Some (OpenError "missing.pgm" "for reading" ENOENT)).
Proof.
  split; (split; [reflexivity|]).
  - exact (proj1 (open_failure_throws_OpenError Z string all_codecs readers writers os
                    0 blank "/proc/out.pnm" PNM EACCES) eq_refl).
  - exact (proj2 (open_failure_throws_OpenError Z string all_codecs readers writers os
                    0 blank "missing.pgm" PNM ENOENT) eq_refl).
Defined.

Lemma img_load_failure_before_dispatch_keeps_image_witness :
  (thrown (img_load all_codecs readers blank (stream_of ["%"%byte]))
     = Some UnsupportedImageType /\
   fst (after (img_load all_codecs readers blank (stream_of ["%"%byte]))) = blank) /\
  (thrown (img_load_file all_codecs readers os 0 blank "missing.pgm")
     = Some (OpenError "missing.pgm" "for reading" ENOENT) /\
   fst (after (img_load_file all_codecs readers os 0 blank "missing.pgm")) = blank).
Proof.
  split; (split; [reflexivity|]).
  - exact (proj1 (img_load_failure_before_dispatch_keeps_image Z string all_codecs readers os
                    0 blank (stream_of ["%"%byte]) "missing.pgm" UnsupportedImageType
                    (or_intror (or_intror (or_introl eq_refl))))
                 eq_refl).
  - exact (proj2 (img_load_failure_before_dispatch_keeps_image Z string all_codecs readers os
                    0 blank (stream_of ["%"%byte]) "missing.pgm"
                    (OpenError "missing.pgm" "for reading" ENOENT)
                    (or_intror (or_intror (or_intror
                       (ex_intro _ "missing.pgm"
                          (ex_intro _ "for reading" (ex_intro _ ENOENT eq_refl)))))))
                 eq_refl).
Defined.

Lemma no_dot_in_JPG : ~ In "."%char (list_ascii_of_string "JPG").
Proof.
  simpl. intros [H|[H|[H|H]]]; try discriminate H. exact H.
Defined.

Lemma img_save_by_name_resolves_extension_witness :
  "x.JPG" = "x" ++ "." ++ "JPG" /\
  ~ In "."%char (list_ascii_of_string "JPG") /\
  same_ignoring_case "JPG" "jpg" = true /\
  img_save_by_name writers os 0 blank "x.JPG" = img_save_file writers os 0 blank "x.JPG" JPEG.
Proof.
  split; [reflexivity|]. split; [exact no_dot_in_JPG|]. split; [reflexivity|].
  exact (proj1 (proj2 (img_save_by_name_resolves_extension Z string writers os 0 blank "x.JPG")
                      "x" "JPG" eq_refl no_dot_in_JPG)
               eq_refl).
Defined.

Lemma ImageType_enumerators_without_TIFF_witness :
  CVD_IMAGE_HAVE_JPEG all_codecs = true /\
  In "JPEG" (enumerators all_codecs) /\
  ~ In "TIFF" (enumerators all_codecs).
Proof.
  pose proof (ImageType_enumerators_without_TIFF all_codecs) as H.
  split; [reflexivity|]. split.
  - exact (proj2 (proj1 (proj2 (proj2 (proj2 (proj2 H))))) eq_refl).
  - exact (proj1 (proj2 (proj2 (proj2 (proj2 (proj2 H)))))).
Defined.


Lemma save_default_policy_witness :
  (Pixel.integral (traits (Component (Rgb ushort))) = true /\
   Pixel.bits_used (traits (Component (Rgb ushort))) > 8 /\
   Internal.save_default pixel component Component traits (Rgb ushort) = true) /\
  (Pixel.integral (traits (Component (Grey float))) = false /\
   Internal.save_default pixel component Component traits (Grey float) = true).
Proof.
  split.
  - split; [reflexivity|]. split; [reflexivity|].
    exact (proj2 (proj1 (save_default_policy pixel component Component traits (Rgb ushort))
                        eq_refl) eq_refl).
  - split; [reflexivity|].
    exact (proj1 (proj2 (proj2 (save_default_policy pixel component Component traits
                                  (Grey float)))) eq_refl).
Defined.

End Witnesses.

(** * Further properties of loading *)

Section LoadOutcomes.

Variables I codec_exn : Type.
Variable rd : Readers I codec_exn.

(** What a reader call can and cannot throw, seen through the layer. *)
Lemma from_codec_thrown {S : Type} (r : result codec_exn S) (e : Image_IO codec_exn) :
  thrown (from_codec r) = Some e -> exists ce, e = FromCodec ce.
Proof.
  unfold from_codec; simpl. destruct (thrown r) as [ce|]; simpl; [|discriminate].
  intros [= <-]. now exists ce.
Qed.

(** The three ways through [img_load]. *)
Lemma img_load_cases (cfg : config) (im : Image I) (i : istream) :
  (good i = false /\
   img_load cfg rd im i =
     if is_ifstream i && negb (is_open i)
     then throws IfstreamNotOpen (im, i)
     else throws EofBeforeImage (im, i)) \/
  (good i = true /\ sgetc i = None /\
   img_load cfg rd im i = throws EofBeforeImage (im, underflowed i)) \/
  (good i = true /\ exists b, sgetc i = Some b /\
   (img_load cfg rd im i = throws UnsupportedImageType (im, i) \/
    exists read,
      In read [readPNM rd; readJPEG rd; readTIFF rd; readBMP rd] /\
      img_load cfg rd im i = from_codec (read im i))).
Proof.
  destruct (good i) eqn:Hg.
  - destruct (sgetc i) as [b|] eqn:Hb.
    + right; right. split; [reflexivity|]. exists b. split; [reflexivity|].
      exact (img_load_available_cases I codec_exn cfg rd im i b Hg Hb).
    + right; left. repeat split.
      exact (img_load_at_end I codec_exn cfg rd im i Hg Hb).
  - left. split; [reflexivity|].
    exact (img_load_not_good I codec_exn cfg rd im i Hg).
Qed.




(** X4.  The configuration matters for the bytes [0xff] and ['I'] only:
    on a stream whose first byte, if it has one, is neither,
    [img_load] behaves alike in all configurations. *)
Theorem img_load_configuration_matters_only_for_optional_codecs
    (cfg1 cfg2 : config) (im : Image I) (i : istream) :
  (forall b : byte, sgetc i = Some b ->
     to_int_type b <> 255 /\ to_int_type b <> char_lit "I") ->
  img_load cfg1 rd im i = img_load cfg2 rd im i.
Proof.
  intros Hb.
  destruct (good i) eqn:Hg.
  2:{ now rewrite !(img_load_not_good I codec_exn _ rd im i Hg). }
  destruct (sgetc i) as [b|] eqn:Hs.
  2:{ now rewrite !(img_load_at_end I codec_exn _ rd im i Hg Hs). }
  rewrite !(img_load_available I codec_exn _ rd im i b Hg Hs). cbv zeta.
  destruct (Hb b eq_refl) as [HJ HT].
  apply Z.eqb_neq in HJ, HT. rewrite HJ, HT, !andb_false_r. reflexivity.
Qed.

(** X5.  Compiling in more codecs changes nothing but refusals: when
    [img_load] does not throw [UnsupportedImageType] in one
    configuration, it does the same in every configuration that has at
    least the same codecs. *)
Theorem img_load_more_codecs_only_replace_refusals
    (cfg1 cfg2 : config) (im : Image I) (i : istream) :
  (CVD_IMAGE_HAVE_JPEG cfg1 = true -> CVD_IMAGE_HAVE_JPEG cfg2 = true) ->
  (CVD_IMAGE_HAVE_TIFF cfg1 = true -> CVD_IMAGE_HAVE_TIFF cfg2 = true) ->
  thrown (img_load cfg1 rd im i) <> Some UnsupportedImageType ->
  img_load cfg2 rd im i = img_load cfg1 rd im i.
Proof.
  intros HJ HT Hn.
  destruct (good i) eqn:Hg.
  2:{ now rewrite !(img_load_not_good I codec_exn _ rd im i Hg). }
  destruct (sgetc i) as [b|] eqn:Hs.
  2:{ now rewrite !(img_load_at_end I codec_exn _ rd im i Hg Hs). }
  rewrite !(img_load_available I codec_exn _ rd im i b Hg Hs) in *. cbv zeta in *.
  destruct (Z.eqb_spec (to_int_type b) (char_lit "P")) as [e|HP]; [reflexivity|].
  destruct (Z.eqb_spec (to_int_type b) 255) as [e|H255].
  - rewrite e in *. simpl in *. rewrite !andb_true_r, !andb_false_r in *.
    destruct (CVD_IMAGE_HAVE_JPEG cfg1).
    + now rewrite HJ.
    + exfalso. apply Hn. reflexivity.
  - rewrite !andb_false_r in *.
    destruct (Z.eqb_spec (to_int_type b) (char_lit "I")) as [e|HI].
    + rewrite e in *. simpl in *. rewrite !andb_true_r in *.
      destruct (CVD_IMAGE_HAVE_TIFF cfg1).
      * now rewrite HT.
      * exfalso. apply Hn. reflexivity.
    + rewrite !andb_false_r in *. reflexivity.
Qed.


(** X7.  The legacy [pnm_load] is not limited to PNM: it sniffs like
    [img_load], so that a stream starting with ['B'] is read as BMP and,
    with JPEG support, one starting with [0xff] as JPEG. *)
Theorem pnm_load_detects_other_formats
    (cfg : config) (im : Image I) (i : istream) (b : byte) :
  good i = true ->
  sgetc i = Some b ->
  (to_int_type b = char_lit "B" ->
     pnm_load cfg rd im i = from_codec (readBMP rd im i)) /\
  (to_int_type b = 255 -> CVD_IMAGE_HAVE_JPEG cfg = true ->
     pnm_load cfg rd im i = from_codec (readJPEG rd im i)).
Proof.
  intros Hg Hs. unfold pnm_load.
  rewrite (img_load_available I codec_exn cfg rd im i b Hg Hs). cbv zeta.
  split.
  - intros ->. simpl. now rewrite !andb_false_r.
  - intros -> ->. reflexivity.
Qed.

(** X18.  The end of data is never taken for a JPEG file.  On a good
    stream with no byte to give, at the end of the data or after a
    failed read, [peek] returns [EOF], which as an
    [unsigned char] is the JPEG marker [0xff]; the test of the stream
    state made before the comparisons throws [EofBeforeImage] all the
    same, with or without JPEG support, and no reader is called. *)
Theorem img_load_end_of_data_is_not_JPEG
    (cfg : config) (im : Image I) (i : istream) :
  good i = true ->
  sgetc i = None ->
  to_unsigned_char (fst (peek i)) = 255 /\
  img_load cfg rd im i = throws EofBeforeImage (im, underflowed i).
Proof.
  intros Hg Hs. split.
  - rewrite (peek_at_end i Hg Hs). reflexivity.
  - exact (img_load_at_end I codec_exn cfg rd im i Hg Hs).
Qed.

End LoadOutcomes.

(** * Further properties of the path overloads *)

Section FileOutcomes.

Variables I codec_exn : Type.
Variable cfg : config.
Variable rd : Readers I codec_exn.
Variable wr : Writers I codec_exn.
Variable os : OS.

(** The file stream [img_load(im, s)] works on when the open succeeds. *)
Let opened (bytes : list byte) : istream :=
  mk_istream true true false false false bytes false.

(** X8.  [img_load] from a path never throws [IfstreamNotOpen]: a failed
    open is reported as [OpenError] before the stream overload is
    entered, and a stream that opened is good. *)
Theorem img_load_file_never_IfstreamNotOpen (errno : Z) (im : Image I) (s : string) :
  thrown (img_load_file cfg rd os errno im s) <> Some IfstreamNotOpen.
Proof.
  destruct (open_for_reading os s) as [bytes|err] eqn:Ho.
  - rewrite (img_load_file_opened I codec_exn cfg rd os errno im s bytes Ho).
    cbv zeta. simpl thrown.
    destruct (img_load_cases I codec_exn rd cfg im (opened bytes))
      as [[Hg H]|[(Hg & Hb & H)|(Hg & b & Hb & [H|(r & _ & H)])]].
    + discriminate Hg.
    + unfold opened in H. rewrite H. discriminate.
    + unfold opened in H. rewrite H. discriminate.
    + unfold opened in H. rewrite H. intros Ht.
      apply from_codec_thrown in Ht. destruct Ht as [ce Ht]. discriminate Ht.
  - rewrite (img_load_file_refused I codec_exn cfg rd os errno im s err Ho). discriminate.
Qed.

(** X9.  A file that opens but holds no byte is reported as
    [EofBeforeImage], not as [OpenError]; the image is left alone. *)
Theorem img_load_file_empty_file (errno : Z) (im : Image I) (s : string) :
  open_for_reading os s = Opened [] ->
  img_load_file cfg rd os errno im s = throws EofBeforeImage (im, errno).
Proof.
  intros Ho.
  rewrite (img_load_file_opened I codec_exn cfg rd os errno im s [] Ho). cbv zeta.
  rewrite (img_load_at_end I codec_exn cfg rd im
             (mk_istream true true false false false [] false) eq_refl eq_refl).
  reflexivity.
Qed.

(** X10.  [OpenError] means that the open failed, and nothing else: when
    either path overload throws it, the exception names the path passed
    in, the mode of that overload and the code of the failed open; on
    the saving side nothing was written. *)
Theorem OpenError_only_when_open_failed
    (errno : Z) (im : Image I) (s : string) (t : ImageType)
    (name mode : string) (err : Z) :
  (thrown (img_load_file cfg rd os errno im s) = Some (OpenError name mode err) ->
     name = s /\ mode = "for reading" /\ open_for_reading os s = Refused err) /\
  (thrown (img_save_file wr os errno im s t) = Some (OpenError name mode err) ->
     name = s /\ mode = "for writing" /\ open_for_writing os s = Refused err /\
     written (fst (after (img_save_file wr os errno im s t))) = []).
Proof.
  split.
  - destruct (open_for_reading os s) as [bytes|err'] eqn:Ho.
    + rewrite (img_load_file_opened I codec_exn cfg rd os errno im s bytes Ho).
      cbv zeta. simpl thrown. intros Ht. exfalso.
      destruct (img_load_cases I codec_exn rd cfg im (opened bytes))
        as [[Hg H]|[(Hg & Hb & H)|(Hg & b & Hb & [H|(r & _ & H)])]].
      * discriminate Hg.
      * unfold opened in H. rewrite H in Ht. discriminate Ht.
      * unfold opened in H. rewrite H in Ht. discriminate Ht.
      * unfold opened in H. rewrite H in Ht.
        apply from_codec_thrown in Ht. destruct Ht as [ce Ht]. discriminate Ht.
    + rewrite (img_load_file_refused I codec_exn cfg rd os errno im s err' Ho).
      simpl. intros [= <- <- <-]. auto.
  - unfold img_save_file, ofstream_ctor.
    destruct (open_for_writing os s) as [[]|err'] eqn:Ho; simpl.
    + intros Ht. exfalso. destruct t; simpl in Ht;
        apply from_codec_thrown in Ht; destruct Ht as [ce Ht]; discriminate Ht.
    + intros [= <- <- <-]. auto.
Qed.

(** X11.  When the file opens and has a first byte, the reader chosen is
    handed an open, good file stream over the whole content of the file,
    first byte included, and what it does to the image and what it throws
    is what the call does. *)
Theorem img_load_file_reader_sees_whole_file
    (errno : Z) (im : Image I) (s : string) (b : byte) (rest : list byte) :
  open_for_reading os s = Opened (b :: rest) ->
  img_load_file cfg rd os errno im s = throws UnsupportedImageType (im, errno) \/
  exists read,
    In read [readPNM rd; readJPEG rd; readTIFF rd; readBMP rd] /\
    let r := read im (mk_istream true true false false false (b :: rest) false) in
    img_load_file cfg rd os errno im s
      = mk_result (option_map FromCodec (thrown r)) (fst (after r), errno).
Proof.
  intros Ho.
  rewrite (img_load_file_opened I codec_exn cfg rd os errno im s (b :: rest) Ho).
  cbv zeta.
  destruct (img_load_available_cases I codec_exn cfg rd im (opened (b :: rest)) b
              eq_refl eq_refl) as [H|(r & Hin & H)];
    unfold opened in H; rewrite H.
  - left. reflexivity.
  - right. exists r. split; [exact Hin|reflexivity].
Qed.

(** [img_save] to a stream throws nothing of its own, whatever the state
    of the stream it is given: an exception leaving it has left the
    writer. *)
Lemma img_save_throws_only_from_codec
    (im : Image I) (o : ostream) (t : ImageType) (e : Image_IO codec_exn) :
  thrown (img_save wr im o t) = Some e -> exists ce, e = FromCodec ce.
Proof.
  destruct t; simpl; apply from_codec_thrown.
Qed.

(** X12.  [img_save] to a path does not look at the stream after the
    writer has returned: when the file opens and the writer returns
    normally, so does [img_save], also when the stream is no longer
    good.  The writer starts from an empty, good stream. *)
Theorem img_save_file_does_not_check_the_stream
    (errno : Z) (im : Image I) (name : string) (t : ImageType) :
  open_for_writing os name = Opened tt ->
  thrown (img_save wr im (mk_ostream true []) t) = None ->
  thrown (img_save_file wr os errno im name t) = None /\
  fst (after (img_save_file wr os errno im name t))
    = after (img_save wr im (mk_ostream true []) t).
Proof.
  intros Ho Ht. unfold img_save_file, ofstream_ctor. rewrite Ho. simpl.
  split; [exact Ht|reflexivity].
Qed.

End FileOutcomes.

(** * Further properties of saving by name *)

Section NameOutcomes.

Local Open Scope string_scope.

Variables I codec_exn : Type.
Variable wr : Writers I codec_exn.
Variable os : OS.

Lemma tolower_all_length (s : string) :
  String.length (tolower_all s) = String.length s.
Proof.
  induction s as [|a s IH]; simpl; [reflexivity|]. now rewrite IH.
Qed.

Lemma tolower_all_In (c : ascii) (s : string) :
  In c (list_ascii_of_string s) ->
  In (tolower c) (list_ascii_of_string (tolower_all s)).
Proof.
  induction s as [|a s IH]; simpl; [tauto|].
  intros [->|Hin]; [left; reflexivity|right; exact (IH Hin)].
Qed.

(** The format chosen for a name with a dot. *)
Lemma img_save_by_name_format (errno : Z) (im : Image I) (stem suffix : string) :
  ~ In "."%char (list_ascii_of_string suffix) ->
  img_save_by_name wr os errno im (stem ++ "." ++ suffix) =
    img_save_file wr os errno im (stem ++ "." ++ suffix)
      (format_of_extension (tolower_all suffix)).
Proof.
  intros Hn.
  rewrite (img_save_by_name_suffix I codec_exn wr os errno im stem suffix Hn).
  cbv zeta. unfold format_of_extension.
  destruct (tolower_all suffix =? "jpg"); [reflexivity|].
  destruct (tolower_all suffix =? "ps"); [reflexivity|].
  destruct (tolower_all suffix =? "eps"); [reflexivity|].
  destruct (tolower_all suffix =? "bmp"); reflexivity.
Qed.

(** Every name is saved under some format. *)
Lemma img_save_by_name_some_format (errno : Z) (im : Image I) (name : string) :
  exists t : ImageType,
    img_save_by_name wr os errno im name = img_save_file wr os errno im name t.
Proof.
  destruct (in_dec ascii_dec "."%char (list_ascii_of_string name)) as [Hin|Hn].
  - destruct (split_at_last "." name Hin) as (stem & suffix & -> & Hs).
    exists (format_of_extension (tolower_all suffix)).
    exact (img_save_by_name_format errno im stem suffix Hs).
  - exists PNM. unfold img_save_by_name. now rewrite (rfind_absent "." name Hn).
Qed.

(** X13.  A path that cannot be opened for writing makes
    [img_save(im, name)] throw [OpenError] with that path and
    ["for writing"] whatever the extension: no writer is called and
    nothing is written. *)
Theorem img_save_by_name_open_failure
    (errno : Z) (im : Image I) (name : string) (err : Z) :
  open_for_writing os name = Refused err ->
  img_save_by_name wr os errno im name
    = throws (OpenError name "for writing" err) (mk_ostream false [], err).
Proof.
  intros Ho.
  destruct (img_save_by_name_some_format errno im name) as [t ->].
  unfold img_save_file, ofstream_ctor. rewrite Ho. reflexivity.
Qed.

(** X14.  Only suffixes of two or three characters name a format: a name
    whose text after the last dot has any other length, such as [jpeg],
    [tiff] or [postscript], is saved as PNM. *)
Theorem img_save_by_name_other_lengths_are_PNM
    (errno : Z) (im : Image I) (stem suffix : string) :
  ~ In "."%char (list_ascii_of_string suffix) ->
  String.length suffix <> 2%nat ->
  String.length suffix <> 3%nat ->
  img_save_by_name wr os errno im (stem ++ "." ++ suffix)
    = img_save_file wr os errno im (stem ++ "." ++ suffix) PNM.
Proof.
  intros Hn H2 H3.
  rewrite (img_save_by_name_format errno im stem suffix Hn).
  f_equal. unfold format_of_extension.
  rewrite <- (tolower_all_length suffix) in H2, H3.
  destruct (String.eqb_spec (tolower_all suffix) "jpg") as [e|_];
    [rewrite e in H3; now contradiction H3|].
  destruct (String.eqb_spec (tolower_all suffix) "ps") as [e|_];
    [rewrite e in H2; now contradiction H2|].
  destruct (String.eqb_spec (tolower_all suffix) "eps") as [e|_];
    [rewrite e in H3; now contradiction H3|].
  destruct (String.eqb_spec (tolower_all suffix) "bmp") as [e|_];
    [rewrite e in H3; now contradiction H3|].
  reflexivity.
Qed.

(** X15.  The format does not depend on the case of the letters of the
    suffix, nor on what comes before the last dot: two names whose
    suffixes are the same but for upper and lower case are saved under
    the same format. *)
Theorem img_save_by_name_ignores_case_and_stem
    (errno : Z) (im : Image I) (stem1 stem2 suffix1 suffix2 : string) :
  ~ In "."%char (list_ascii_of_string suffix1) ->
  ~ In "."%char (list_ascii_of_string suffix2) ->
  same_ignoring_case suffix1 suffix2 = true ->
  exists t : ImageType,
    img_save_by_name wr os errno im (stem1 ++ "." ++ suffix1)
      = img_save_file wr os errno im (stem1 ++ "." ++ suffix1) t /\
    img_save_by_name wr os errno im (stem2 ++ "." ++ suffix2)
      = img_save_file wr os errno im (stem2 ++ "." ++ suffix2) t.
Proof.
  intros H1 H2 He.
  exists (format_of_extension (tolower_all suffix1)). split.
  - exact (img_save_by_name_format errno im stem1 suffix1 H1).
  - rewrite (tolower_all_same suffix1 suffix2 He).
    exact (img_save_by_name_format errno im stem2 suffix2 H2).
Qed.

(** X16.  The last dot is looked for in the whole path: when it lies in
    a directory name, so that a ['/'] follows it, the file is saved as
    PNM. *)
Theorem img_save_by_name_dot_in_directory
    (errno : Z) (im : Image I) (stem suffix : string) :
  ~ In "."%char (list_ascii_of_string suffix) ->
  In "/"%char (list_ascii_of_string suffix) ->
  img_save_by_name wr os errno im (stem ++ "." ++ suffix)
    = img_save_file wr os errno im (stem ++ "." ++ suffix) PNM.
Proof.
  intros Hn Hs.
  rewrite (img_save_by_name_format errno im stem suffix Hn).
  f_equal. unfold format_of_extension.
  apply tolower_all_In in Hs. change (tolower "/") with "/"%char in Hs.
  destruct (String.eqb_spec (tolower_all suffix) "jpg") as [e|_].
  { rewrite e in Hs. simpl in Hs. exfalso. intuition discriminate. }
  destruct (String.eqb_spec (tolower_all suffix) "ps") as [e|_].
  { rewrite e in Hs. simpl in Hs. exfalso. intuition discriminate. }
  destruct (String.eqb_spec (tolower_all suffix) "eps") as [e|_].
  { rewrite e in Hs. simpl in Hs. exfalso. intuition discriminate. }
  destruct (String.eqb_spec (tolower_all suffix) "bmp") as [e|_].
  { rewrite e in Hs. simpl in Hs. exfalso. intuition discriminate. }
  reflexivity.
Qed.

(** X17.  [img_save(im, name)] throws nothing but [OpenError] for that
    very name, when the open fails, and what leaves the writer: looking
    up the extension raises no error, for any name. *)
Theorem img_save_by_name_exceptions
    (errno : Z) (im : Image I) (name : string) (e : Image_IO codec_exn) :
  thrown (img_save_by_name wr os errno im name) = Some e ->
  (exists err, e = OpenError name "for writing" err /\
               open_for_writing os name = Refused err) \/
  (exists ce, e = FromCodec ce).
Proof.
  destruct (img_save_by_name_some_format errno im name) as [t ->].
  unfold img_save_file, ofstream_ctor.
  destruct (open_for_writing os name) as [[]|err]; simpl.
  - intros Ht. right. destruct t; simpl in Ht; exact (from_codec_thrown codec_exn _ _ Ht).
  - intros [= <-]. left. exists err. auto.
Qed.

End NameOutcomes.

(** * The further properties on the sample instantiation *)

Section MoreWitnesses.

Import Sample.
Local Open Scope string_scope.




Lemma first_byte_P_is_not_optional :
  forall b : byte,
    sgetc (stream_of ["P"%byte; "5"%byte]) = Some b ->
    to_int_type b <> 255 /\ to_int_type b <> char_lit "I".
Proof.
  intros b Hb. injection Hb as <-. split; discriminate.
Defined.

Lemma img_load_configuration_matters_only_for_optional_codecs_witness :
  img_load all_codecs readers blank (stream_of ["P"%byte; "5"%byte])
    = img_load no_optional_codecs readers blank (stream_of ["P"%byte; "5"%byte]).
Proof.
  exact (img_load_configuration_matters_only_for_optional_codecs Z string readers
           all_codecs no_optional_codecs blank (stream_of ["P"%byte; "5"%byte])
           first_byte_P_is_not_optional).
Defined.

Lemma BMP_is_not_refused :
  thrown (img_load no_optional_codecs readers blank (stream_of ["B"%byte; "M"%byte]))
    <> Some UnsupportedImageType.
Proof.
  discriminate.
Defined.

Lemma img_load_more_codecs_only_replace_refusals_witness :
  img_load all_codecs readers blank (stream_of ["B"%byte; "M"%byte])
    = img_load no_optional_codecs readers blank (stream_of ["B"%byte; "M"%byte]).
Proof.
  exact (img_load_more_codecs_only_replace_refusals Z string readers
           no_optional_codecs all_codecs blank (stream_of ["B"%byte; "M"%byte])
           (fun _ => eq_refl) (fun _ => eq_refl) BMP_is_not_refused).
Defined.


Lemma pnm_load_detects_other_formats_witness :
  good (stream_of ["B"%byte; "M"%byte]) = true /\
  sgetc (stream_of ["B"%byte; "M"%byte]) = Some "B"%byte /\
  pnm_load all_codecs readers blank (stream_of ["B"%byte; "M"%byte])
    = from_codec (readBMP readers blank (stream_of ["B"%byte; "M"%byte])).
Proof.
  split; [reflexivity|]. split; [reflexivity|].
  exact (proj1 (pnm_load_detects_other_formats Z string readers all_codecs blank
                  (stream_of ["B"%byte; "M"%byte]) "B"%byte eq_refl eq_refl)
               eq_refl).
Defined.

Lemma img_load_file_empty_file_witness :
  open_for_reading SampleFailures.os "empty.pgm" = Opened [] /\
  img_load_file all_codecs readers SampleFailures.os 0 blank "empty.pgm"
    = throws EofBeforeImage (blank, 0).
Proof.
  split; [reflexivity|].
  exact (img_load_file_empty_file Z string all_codecs readers SampleFailures.os
           0 blank "empty.pgm" eq_refl).
Defined.

Lemma OpenError_only_when_open_failed_witness :
  (thrown (img_load_file all_codecs readers os 0 blank "missing.pgm")
     = Some (OpenError "missing.pgm" "for reading" ENOENT) /\
   open_for_reading os "missing.pgm" = Refused ENOENT) /\
  (thrown (img_save_file writers os 0 blank "/proc/out.pnm" BMP)
     = Some (OpenError "/proc/out.pnm" "for writing" EACCES) /\
   open_for_writing os "/proc/out.pnm" = Refused EACCES).
Proof.
  split; (split; [reflexivity|]).
  - exact (proj2 (proj2 (proj1 (OpenError_only_when_open_failed Z string all_codecs
                                  readers writers os 0 blank "missing.pgm" BMP
                                  "missing.pgm" "for reading" ENOENT) eq_refl))).
  - exact (proj1 (proj2 (proj2 (proj2 (OpenError_only_when_open_failed Z string all_codecs
                                  readers writers os 0 blank "/proc/out.pnm" BMP
                                  "/proc/out.pnm" "for writing" EACCES) eq_refl)))).
Defined.

Lemma img_load_file_reader_sees_whole_file_witness :
  open_for_reading os "in.pgm" = Opened ["P"%byte; "5"%byte] /\
  (img_load_file all_codecs SampleFailures.throwing_readers os 0 blank "in.pgm"
     = throws UnsupportedImageType (blank, 0) \/
   exists read,
     In read [readPNM SampleFailures.throwing_readers;
              readJPEG SampleFailures.throwing_readers;
              readTIFF SampleFailures.throwing_readers;
              readBMP SampleFailures.throwing_readers] /\
     img_load_file all_codecs SampleFailures.throwing_readers os 0 blank "in.pgm"
       = mk_result
           (option_map FromCodec
              (thrown (read blank (mk_istream true true false false false
                                     ["P"%byte; "5"%byte] false))))
           (fst (after (read blank (mk_istream true true false false false
                                      ["P"%byte; "5"%byte] false))), 0)).
Proof.
  split; [reflexivity|].
  exact (img_load_file_reader_sees_whole_file Z string all_codecs
           SampleFailures.throwing_readers os 0 blank "in.pgm"
           "P"%byte ["5"%byte] eq_refl).
Defined.

Lemma img_save_file_does_not_check_the_stream_witness :
  open_for_writing os "out.pnm" = Opened tt /\
  thrown (img_save SampleFailures.silent_writers blank (mk_ostream true []) PNM) = None /\
  o_good (after (img_save SampleFailures.silent_writers blank (mk_ostream true []) PNM))
    = false /\
  thrown (img_save_file SampleFailures.silent_writers os 0 blank "out.pnm" PNM) = None.
Proof.
  split; [reflexivity|]. split; [reflexivity|]. split; [reflexivity|].
  exact (proj1 (img_save_file_does_not_check_the_stream Z string
                  SampleFailures.silent_writers os 0 blank "out.pnm" PNM
                  eq_refl eq_refl)).
Defined.

Lemma img_save_by_name_open_failure_witness :
  open_for_writing SampleFailures.os "/proc/out.jpg" = Refused EACCES /\
  img_save_by_name writers SampleFailures.os 0 blank "/proc/out.jpg"
    = throws (OpenError "/proc/out.jpg" "for writing" EACCES) (mk_ostream false [], EACCES).
Proof.
  split; [reflexivity|].
  exact (img_save_by_name_open_failure Z string writers SampleFailures.os
           0 blank "/proc/out.jpg" EACCES eq_refl).
Defined.

Lemma no_dot_in_jpeg : ~ In "."%char (list_ascii_of_string "jpeg").
Proof.
  simpl. intros [H|[H|[H|[H|H]]]]; try discriminate H. exact H.
Defined.

Lemma no_dot_in_jpg : ~ In "."%char (list_ascii_of_string "jpg").
Proof.
  simpl. intros [H|[H|[H|H]]]; try discriminate H. exact H.
Defined.

Lemma no_dot_in_eps_x : ~ In "."%char (list_ascii_of_string "eps/x").
Proof.
  simpl. intros [H|[H|[H|[H|[H|H]]]]]; try discriminate H. exact H.
Defined.

Lemma img_save_by_name_other_lengths_are_PNM_witness :
  ~ In "."%char (list_ascii_of_string "jpeg") /\
  String.length "jpeg" <> 2%nat /\
  String.length "jpeg" <> 3%nat /\
  img_save_by_name writers os 0 blank ("x" ++ "." ++ "jpeg")
    = img_save_file writers os 0 blank ("x" ++ "." ++ "jpeg") PNM.
Proof.
  split; [exact no_dot_in_jpeg|].
  split; [discriminate|]. split; [discriminate|].
  refine (img_save_by_name_other_lengths_are_PNM Z string writers os 0 blank
            "x" "jpeg" no_dot_in_jpeg _ _); discriminate.
Defined.

Lemma img_save_by_name_ignores_case_and_stem_witness :
  same_ignoring_case "JPG" "jpg" = true /\
  exists t : ImageType,
    img_save_by_name writers os 0 blank ("a" ++ "." ++ "JPG")
      = img_save_file writers os 0 blank ("a" ++ "." ++ "JPG") t /\
    img_save_by_name writers os 0 blank ("dir/b" ++ "." ++ "jpg")
      = img_save_file writers os 0 blank ("dir/b" ++ "." ++ "jpg") t.
Proof.
  split; [reflexivity|].
  exact (img_save_by_name_ignores_case_and_stem Z string writers os 0 blank
           "a" "dir/b" "JPG" "jpg" no_dot_in_JPG no_dot_in_jpg eq_refl).
Defined.

Lemma img_save_by_name_dot_in_directory_witness :
  In "/"%char (list_ascii_of_string "eps/x") /\
  img_save_by_name writers os 0 blank ("a" ++ "." ++ "eps/x")
    = img_save_file writers os 0 blank ("a" ++ "." ++ "eps/x") PNM.
Proof.
  split; [simpl; tauto|].
  refine (img_save_by_name_dot_in_directory Z string writers os 0 blank
            "a" "eps/x" no_dot_in_eps_x _).
  simpl. tauto.
Defined.

Lemma img_save_by_name_exceptions_witness :
  thrown (img_save_by_name writers SampleFailures.os 0 blank "/proc/out.jpg")
    = Some (OpenError "/proc/out.jpg" "for writing" EACCES) /\
  ((exists err, @OpenError string "/proc/out.jpg" "for writing" EACCES
                  = OpenError "/proc/out.jpg" "for writing" err /\
                open_for_writing SampleFailures.os "/proc/out.jpg" = Refused err) \/
   (exists ce, @OpenError string "/proc/out.jpg" "for writing" EACCES = FromCodec ce)).
Proof.
  split; [reflexivity|].
  exact (img_save_by_name_exceptions Z string writers SampleFailures.os 0 blank
           "/proc/out.jpg" (OpenError "/proc/out.jpg" "for writing" EACCES) eq_refl).
Defined.

Lemma img_load_end_of_data_is_not_JPEG_witness :
  good (stream_of []) = true /\
  sgetc (stream_of []) = None /\
  to_unsigned_char (fst (peek (stream_of []))) = 255 /\
  img_load all_codecs readers blank (stream_of [])
    = throws EofBeforeImage (blank, set_eofbit (stream_of [])).
Proof.
  split; [reflexivity|]. split; [reflexivity|].
  exact (img_load_end_of_data_is_not_JPEG Z string readers all_codecs blank
           (stream_of []) eq_refl eq_refl).
Defined.

End MoreWitnesses.
